(** * Mueller and Muller clock recovery (8_wip_Synchronization.ipynb)

    A shallow embedding of the time-synchronisation cell of the notebook
    (the [while] loop that picks one sample per symbol) and of the
    pulse-train construction that feeds it.

    Numbers.  The notebook computes on float64 and complex128 values.  They
    are modelled here by exact rationals ([Q]) and by pairs of rationals
    ([complex]); Python's unbounded [int] is [Z].  Rounding, infinities and
    NaN are therefore outside the model: every statement below is about the
    index arithmetic and the exact-arithmetic value flow of the loop.

    Arrays.  A numpy array is a [list]; reading and writing one element goes
    through [np_getitem] and [np_setitem], which implement Python's index
    convention (a negative index counts from the end, anything outside
    [-len, len) raises IndexError, modelled by [None]). *)

From Stdlib Require Import ZArith QArith Qround Lia Lqa.
From stdpp Require Import base option list.

Local Open Scope Z_scope.

(** ** Complex numbers over the rationals *)

Record complex : Type := mkC { re : Q; im : Q }.

Definition C0 : complex := mkC 0 0.

(** A real value promoted to a complex one, as numpy does on assignment into
    a complex array. *)
Definition of_real (x : Q) : complex := mkC x 0.

Definition Csub (a b : complex) : complex :=
  mkC (re a - re b)%Q (im a - im b)%Q.

Definition Cmul (a b : complex) : complex :=
  mkC (re a * re b - im a * im b)%Q (re a * im b + im a * re b)%Q.

(** [np.conj] *)
Definition Cconj (a : complex) : complex := mkC (re a) (- im a)%Q.

(** ** Python and numpy primitives *)

(** [x > 0] on floats, then [int(...)] of the resulting bool. *)
Definition Qgtb (x y : Q) : bool := negb (Qle_bool x y).

Definition int_of_bool (b : bool) : Q := if b then 1%Q else 0%Q.

(** [int(x)] on a float: truncation towards zero. *)
Definition py_int (x : Q) : Z := Z.quot (Qnum x) (Zpos (Qden x)).

(** [np.floor(x)], kept as an integer; [inject_Z] turns it back into a
    float where the source uses it as one. *)
Definition np_floor (x : Q) : Z := Qfloor x.

(** [a[i]] for an integer [i]. *)
Definition np_getitem {A : Type} (a : list A) (i : Z) : option A :=
  let n := Z.of_nat (length a) in
  if (0 <=? i) && (i <? n) then a !! Z.to_nat i
  else if (- n <=? i) && (i <? 0) then a !! Z.to_nat (n + i)
  else None.

(** [a[i] = v] for an integer [i]. *)
Definition np_setitem {A : Type} (a : list A) (i : Z) (v : A) : option (list A) :=
  let n := Z.of_nat (length a) in
  if (0 <=? i) && (i <? n) then Some (<[Z.to_nat i := v]> a)
  else if (- n <=? i) && (i <? 0) then Some (<[Z.to_nat (n + i) := v]> a)
  else None.

(** [np.zeros(n)] *)
Definition np_zeros (n : nat) : list complex := replicate n C0.

(** [a[lo:hi]] for [0 <= lo] and [0 <= hi]. *)
Definition np_slice {A : Type} (a : list A) (lo hi : Z) : list A :=
  drop (Z.to_nat lo) (take (Z.to_nat hi) a).

(** ** The pulse train of the first cell

    [pulse = np.zeros(sps); pulse[0] = bit*2-1;
     pulse_train = np.concatenate((pulse_train, pulse))] for each bit. *)

Definition pulse (sps : nat) (bit : Z) : option (list Q) :=
  np_setitem (replicate sps 0%Q) 0 (inject_Z (bit * 2 - 1)).

Fixpoint pulse_train_from (sps : nat) (acc : list Q) (bits : list Z) : option (list Q) :=
  match bits with
  | [] => Some acc
  | bit :: rest =>
      p ← pulse sps bit;
      pulse_train_from sps (acc ++ p) rest
  end.

Definition pulse_train (sps : nat) (bits : list Z) : option (list Q) :=
  pulse_train_from sps [] bits.

(** ** The clock-recovery loop *)

(** The loop constant written [0.3] in the update of [mu]. *)
Definition gain : Q := 3 # 10.

(** The constant [16] of the loop guard. *)
Definition lookahead_margin : Z := 16.

(** The hard decision of the loop:
    [int(np.real(v) > 0) + 1j*int(np.imag(v) > 0)]. *)
Definition slicer (v : complex) : complex :=
  mkC (int_of_bool (Qgtb (re v) 0)) (int_of_bool (Qgtb (im v) 0)).

(** The variables the loop mutates. *)
Record State : Type := mkState {
  mu : Q;
  out : list complex;
  out_rail : list complex;
  i_in : Z;
  i_out : Z
}.

(** How a run of the cell ends. *)
Inductive outcome : Type :=
| Done (s : State)       (* the guard became false *)
| IndexError             (* a subscript raised *)
| OutOfFuel.             (* the iteration budget of [loop] ran out *)

Section Recovery.

(** [sps] is the notebook's global (set to 8 in the first cell); [samples]
    is the Input Stream. *)
Variable sps : Q.
Variable samples : list complex.

Definition L : Z := Z.of_nat (length samples).

(** State before the loop: [mu = 0], both arrays zero-filled with
    [len(samples) + 10] entries, [i_in = 0], [i_out = 2]. *)
Definition init : State :=
  mkState 0%Q (np_zeros (length samples + 10)) (np_zeros (length samples + 10)) 0 2.

(** [i_out < len(samples) and i_in+16 < len(samples)] *)
Definition guard (s : State) : bool :=
  (i_out s <? L) && (i_in s + lookahead_margin <? L).

(** The subscript of the read of [samples]. *)
Definition read_index (s : State) : Z := i_in s + py_int (mu s).

(** The Mueller and Muller error term computed after the two stores. *)
Definition mm_val_of (o r : list complex) (k : Z) : option Q :=
  r_k ← np_getitem r k;
  r_k2 ← np_getitem r (k - 2);
  o_k1 ← np_getitem o (k - 1);
  let x := Cmul (Csub r_k r_k2) (Cconj o_k1) in
  o_k ← np_getitem o k;
  o_k2 ← np_getitem o (k - 2);
  r_k1 ← np_getitem r (k - 1);
  let y := Cmul (Csub o_k o_k2) (Cconj r_k1) in
  Some (re (Csub y x)).

(** The value of [mu] after [mu += sps + 0.3*mm_val] and before the
    index/fraction split, for an iteration whose error term is [mm]. *)
Definition mu_updated (s : State) (mm : Q) : Q := (mu s + (sps + gain * mm))%Q.

(** One execution of the loop body; [None] is an IndexError. *)
Definition body (s : State) : option State :=
  v ← np_getitem samples (read_index s);
  out1 ← np_setitem (out s) (i_out s) v;
  o_k ← np_getitem out1 (i_out s);
  rail1 ← np_setitem (out_rail s) (i_out s) (slicer o_k);
  mm_val ← mm_val_of out1 rail1 (i_out s);
  let mu1 := (mu s + (sps + gain * mm_val))%Q in
  let i_in1 := i_in s + np_floor mu1 in
  let mu2 := (mu1 - inject_Z (np_floor mu1))%Q in
  Some (mkState mu2 out1 rail1 i_in1 (i_out s + 1)).

(** The [while] loop, with an iteration budget. *)
Fixpoint loop (fuel : nat) (s : State) : outcome :=
  if guard s then
    match fuel with
    | O => OutOfFuel
    | S fuel' =>
        match body s with
        | Some s' => loop fuel' s'
        | None => IndexError
        end
    end
  else Done s.

(** The Output Sequence: [out = out[2:i_out]] after the loop. *)
Definition output_of (s : State) : list complex := np_slice (out s) 2 (i_out s).

(** The whole cell.  [length samples] iterations are always enough, see
    [loop_enough_fuel]. *)
Definition run : outcome := loop (length samples) init.

Definition recovered : option (list complex) :=
  match run with
  | Done s => Some (output_of s)
  | _ => None
  end.

(** [steps n s]: the state after [n] complete iterations started in [s],
    when the guard held before each of them and none of them raised. *)
Fixpoint steps (n : nat) (s : State) : option State :=
  match n with
  | O => Some s
  | S n' => if guard s then s' ← body s; steps n' s' else None
  end.

(** The states the loop goes through: [reaches n s] when [s] is the state
    at the top of the loop after [n] complete iterations. *)
Definition reaches (n : nat) (s : State) : Prop := steps n init = Some s.

(** What holds of every state at the top of the loop after [n] iterations:
    the two work arrays keep their allocated size, the output index has
    advanced by [n], and [mu] is a fraction. *)
Definition well_formed (n : nat) (s : State) : Prop :=
  length (out s) = (length samples + 10)%nat /\
  length (out_rail s) = (length samples + 10)%nat /\
  i_out s = 2 + Z.of_nat n /\
  (0 <= mu s)%Q /\ (mu s < 1)%Q.

(** Big-step semantics of the [while] statement, without a budget. *)
Inductive while_exec : State -> outcome -> Prop :=
| while_exit s :
    guard s = false -> while_exec s (Done s)
| while_raise s :
    guard s = true -> body s = None -> while_exec s IndexError
| while_iter s s' r :
    guard s = true -> body s = Some s' -> while_exec s' r -> while_exec s r.

End Recovery.


(** Both components of a sample lie in [[-B, B]]. *)
Definition bounded (B : Q) (v : complex) : Prop :=
  (- B <= re v <= B)%Q /\ (- B <= im v <= B)%Q.

(** Both components of a decision are the literal levels 0 or 1. *)
Definition is_rail (v : complex) : Prop :=
  (re v = 0%Q \/ re v = 1%Q) /\ (im v = 0%Q \/ im v = 1%Q).

(** ** Concrete streams used below *)

Definition bits_C1 : list Z := [1; 0; 1; 1; 0].

Definition stream_C1 : list complex :=
  match pulse_train 8 bits_C1 with
  | Some p => map of_real p
  | None => []
  end.

(** The loop state after [n] iterations on [stream_C1] at [sps = 8]. *)
Definition state_C1 (n : nat) : State :=
  default (init stream_C1) (steps 8 stream_C1 n (init stream_C1)).

(** Seventeen zero samples: one more than the guard's margin. *)
Definition stream_zeros17 : list complex := replicate 17 C0.

(** Twenty-five real samples, all zero except [samples[0] = 100] and
    [samples[8] = -1000]. *)
Definition stream_swing : list complex :=
  map of_real ([100%Q] ++ replicate 7 0%Q ++ [(-1000)%Q] ++ replicate 16 0%Q).


(** ** The filter cells

    Of the two filter cells only the index grid and the normalisation are
    embedded; the taps themselves come from [np.sinc], [np.cos] and
    [np.hamming] and are taken as a given list. *)

(** [np.arange(lo, hi)] on integers. *)
Definition np_arange (lo hi : Z) : list Z :=
  map (fun i => lo + Z.of_nat i) (seq 0 (Z.to_nat (hi - lo))).

(** [n = np.arange(-N//2, N//2)].  Python reads [-N//2] as [(-N)//2], and
    [//] rounds towards minus infinity, as [Z.div] does. *)
Definition tap_grid (N : Z) : list Z := np_arange ((- N) / 2) (N / 2).



(** * Facts *)

(** ** Numeric primitives *)

Lemma py_int_unit (x : Q) : (0 <= x)%Q -> (x < 1)%Q -> py_int x = 0.
Proof.
  destruct x as [n d]. unfold Qle, Qlt, py_int. simpl. intros H0 H1.
  rewrite Z.mul_1_r in H0, H1. rewrite Z.mul_1_l in H1.
  apply Z.quot_small. split; lia.
Qed.

Lemma frac_unit (x : Q) :
  (0 <= x - inject_Z (np_floor x))%Q /\ (x - inject_Z (np_floor x) < 1)%Q.
Proof.
  unfold np_floor.
  pose proof (Qfloor_le x) as Hle.
  pose proof (Qlt_floor x) as Hlt.
  rewrite inject_Z_plus in Hlt.
  change (inject_Z 1) with 1%Q in Hlt.
  split; lra.
Qed.

Lemma np_floor_nonneg (x : Q) : (0 <= x)%Q -> 0 <= np_floor x.
Proof.
  intros H. unfold np_floor.
  change 0 with (Qfloor 0). now apply Qfloor_resp_le.
Qed.

Lemma np_floor_neg (x : Q) : (x < 0)%Q -> np_floor x < 0.
Proof.
  intros H. unfold np_floor.
  pose proof (Qfloor_le x) as Hle.
  destruct (Z_lt_le_dec (Qfloor x) 0) as [Hlt | Hge]; [exact Hlt |].
  exfalso.
  assert (0 <= inject_Z (Qfloor x))%Q as H0.
  { change 0%Q with (inject_Z 0). rewrite <- Zle_Qle. exact Hge. }
  lra.
Qed.

Lemma Qgtb_true (x y : Q) : Qgtb x y = true <-> (y < x)%Q.
Proof.
  unfold Qgtb. rewrite negb_true_iff, <- not_true_iff_false, Qle_bool_iff.
  split; [apply Qnot_le_lt | apply Qlt_not_le].
Qed.

Lemma Qgtb_false (x y : Q) : Qgtb x y = false <-> (x <= y)%Q.
Proof.
  unfold Qgtb. rewrite negb_false_iff. apply Qle_bool_iff.
Qed.

Lemma slicer_is_rail (v : complex) : is_rail (slicer v).
Proof.
  unfold is_rail, slicer; simpl.
  split; [destruct (Qgtb (re v) 0) | destruct (Qgtb (im v) 0)]; simpl; auto.
Qed.

(** ** Subscripts *)

Section Subscripts.

Context {A : Type}.
Implicit Types (a : list A) (i : Z) (v : A).

Lemma np_getitem_inside a i :
  0 <= i < Z.of_nat (length a) -> np_getitem a i = a !! Z.to_nat i.
Proof.
  intros H. unfold np_getitem.
  destruct (0 <=? i) eqn:E1; [| lia].
  destruct (i <? Z.of_nat (length a)) eqn:E2; [reflexivity | lia].
Qed.

Lemma np_getitem_is_Some a i :
  is_Some (np_getitem a i) <-> - Z.of_nat (length a) <= i < Z.of_nat (length a).
Proof.
  unfold np_getitem.
  destruct (0 <=? i) eqn:E1; destruct (i <? Z.of_nat (length a)) eqn:E2;
    destruct (- Z.of_nat (length a) <=? i) eqn:E3;
    destruct (i <? 0) eqn:E4; simpl;
    rewrite ?lookup_lt_is_Some; try lia;
    (split; [intros [? ?]; congruence | lia]).
Qed.

Lemma np_getitem_None a i :
  np_getitem a i = None <-> i < - Z.of_nat (length a) \/ Z.of_nat (length a) <= i.
Proof.
  rewrite eq_None_not_Some, np_getitem_is_Some. lia.
Qed.

Lemma np_getitem_elem a i v : np_getitem a i = Some v -> v ∈ a.
Proof.
  unfold np_getitem. intros H.
  destruct ((0 <=? i) && (i <? Z.of_nat (length a))).
  - eapply list_elem_of_lookup_2; eauto.
  - destruct ((- Z.of_nat (length a) <=? i) && (i <? 0)); [| discriminate].
    eapply list_elem_of_lookup_2; eauto.
Qed.

Lemma np_setitem_inside a i v :
  0 <= i < Z.of_nat (length a) -> np_setitem a i v = Some (<[Z.to_nat i := v]> a).
Proof.
  intros H. unfold np_setitem.
  destruct (0 <=? i) eqn:E1; [| lia].
  destruct (i <? Z.of_nat (length a)) eqn:E2; [reflexivity | lia].
Qed.

Lemma np_setitem_length a i v a' : np_setitem a i v = Some a' -> length a' = length a.
Proof.
  unfold np_setitem. intros H.
  destruct ((0 <=? i) && (i <? Z.of_nat (length a))).
  - inversion H. apply length_insert.
  - destruct ((- Z.of_nat (length a) <=? i) && (i <? 0)); [| discriminate].
    inversion H. apply length_insert.
Qed.

End Subscripts.

(** ** One iteration *)

(** In [H : (x ← e; k) = Some _], name the value of [e] and step into [k]. *)
Ltac bind_inv H x E :=
  match type of H with
  | mbind _ ?e = Some _ =>
      destruct e as [x |] eqn:E; [cbn in H | discriminate H]
  end.

Section LoopFacts.

Variable sps : Q.
Variable samples : list complex.

(** What a successful iteration did. *)
Lemma body_Some (s s' : State) :
  body sps samples s = Some s' ->
  exists v mm,
    np_getitem samples (read_index s) = Some v /\
    np_setitem (out s) (i_out s) v = Some (out s') /\
    (exists o_k, np_getitem (out s') (i_out s) = Some o_k /\
       np_setitem (out_rail s) (i_out s) (slicer o_k) = Some (out_rail s')) /\
    mm_val_of (out s') (out_rail s') (i_out s) = Some mm /\
    mu s' = (mu_updated sps s mm - inject_Z (np_floor (mu_updated sps s mm)))%Q /\
    i_in s' = i_in s + np_floor (mu_updated sps s mm) /\
    i_out s' = i_out s + 1.
Proof.
  unfold body. intros H.
  bind_inv H v Ev. bind_inv H out1 Eo. bind_inv H o_k Ek.
  bind_inv H rail1 Er. bind_inv H mm Em.
  inversion H; subst s'; clear H. cbn.
  exists v, mm. repeat split; eauto.
Qed.

(** The output index counts the iterations. *)
Lemma body_i_out (s s' : State) :
  body sps samples s = Some s' -> i_out s' = i_out s + 1.
Proof.
  intros H. apply body_Some in H as (v & mm & _ & _ & _ & _ & _ & _ & H). exact H.
Qed.

Lemma body_lengths (s s' : State) :
  body sps samples s = Some s' ->
  length (out s') = length (out s) /\ length (out_rail s') = length (out_rail s).
Proof.
  intros H.
  apply body_Some in H as (v & mm & _ & Ho & (o_k & _ & Hr) & _).
  split; eapply np_setitem_length; eauto.
Qed.

(** The guard, read as two comparisons. *)
Lemma guard_true (s : State) :
  guard samples s = true <->
  i_out s < L samples /\ i_in s + lookahead_margin < L samples.
Proof. unfold guard. rewrite andb_true_iff, !Z.ltb_lt. reflexivity. Qed.

Lemma guard_false (s : State) :
  guard samples s = false <->
  L samples <= i_out s \/ L samples <= i_in s + lookahead_margin.
Proof. unfold guard. rewrite andb_false_iff, !Z.ltb_ge. reflexivity. Qed.

(** ** Iterating *)

Lemma steps_snoc (n : nat) (s : State) :
  steps sps samples (S n) s =
  (s' ← steps sps samples n s;
   if guard samples s' then body sps samples s' else None).
Proof.
  revert s. induction n as [| n IH]; intros s.
  - cbn. destruct (guard samples s); [| reflexivity].
    destruct (body sps samples s); reflexivity.
  - change (steps sps samples (S (S n)) s)
      with (if guard samples s
            then s1 ← body sps samples s; steps sps samples (S n) s1
            else None).
    destruct (guard samples s) eqn:Eg.
    + destruct (body sps samples s) as [s1 |] eqn:Eb.
      * cbn [mbind option_bind]. rewrite IH.
        cbn [steps]. rewrite Eg, Eb. reflexivity.
      * cbn [steps]. rewrite Eg, Eb. reflexivity.
    + cbn [steps]. rewrite Eg. reflexivity.
Qed.

Lemma reaches_0 : reaches sps samples 0 (init samples).
Proof. reflexivity. Qed.

Lemma reaches_S (n : nat) (s s' : State) :
  reaches sps samples n s -> guard samples s = true ->
  body sps samples s = Some s' -> reaches sps samples (S n) s'.
Proof.
  unfold reaches. intros Hr Hg Hb. rewrite steps_snoc, Hr. cbn. rewrite Hg. exact Hb.
Qed.

Lemma reaches_S_inv (n : nat) (s' : State) :
  reaches sps samples (S n) s' ->
  exists s, reaches sps samples n s /\ guard samples s = true /\
            body sps samples s = Some s'.
Proof.
  unfold reaches. rewrite steps_snoc. intros H.
  destruct (steps sps samples n (init samples)) as [s |]; [| discriminate].
  cbn in H. destruct (guard samples s) eqn:Eg; [| discriminate].
  exists s. auto.
Qed.

(** Induction over the states the loop goes through. *)
Lemma reaches_ind (P : nat -> State -> Prop) :
  P O (init samples) ->
  (forall n s s', reaches sps samples n s -> P n s -> guard samples s = true ->
     body sps samples s = Some s' -> P (S n) s') ->
  forall n s, reaches sps samples n s -> P n s.
Proof.
  intros H0 HS. induction n as [| n IH]; intros s Hr.
  - unfold reaches in Hr. cbn in Hr. inversion Hr. exact H0.
  - apply reaches_S_inv in Hr as (s0 & Hr0 & Hg & Hb). eauto.
Qed.

(** ** Stores and loads of the work arrays *)

Lemma np_getitem_setitem_eq {A : Type} (a a' : list A) (i : Z) (v : A) :
  np_setitem a i v = Some a' -> np_getitem a' i = Some v.
Proof.
  unfold np_setitem, np_getitem. intros H.
  destruct ((0 <=? i) && (i <? Z.of_nat (length a))) eqn:E1.
  - inversion H; subst a'. rewrite length_insert, E1.
    apply list_lookup_insert_eq.
    apply andb_true_iff in E1 as [E0 E1]. apply Z.leb_le in E0. apply Z.ltb_lt in E1. lia.
  - destruct ((- Z.of_nat (length a) <=? i) && (i <? 0)) eqn:E2; [| discriminate].
    inversion H; subst a'. rewrite length_insert, E1, E2.
    apply list_lookup_insert_eq.
    apply andb_true_iff in E2 as [E0 E2]. apply Z.leb_le in E0. apply Z.ltb_lt in E2. lia.
Qed.

Lemma np_getitem_setitem_ne {A : Type} (a a' : list A) (i j : Z) (v : A) :
  0 <= i -> 0 <= j -> i <> j ->
  np_setitem a i v = Some a' -> np_getitem a' j = np_getitem a j.
Proof.
  intros Hi Hj Hne H.
  pose proof (np_setitem_length _ _ _ _ H) as Hlen.
  unfold np_setitem in H.
  destruct ((0 <=? i) && (i <? Z.of_nat (length a))) eqn:E1.
  - inversion H; subst a'. unfold np_getitem. rewrite length_insert.
    destruct ((0 <=? j) && (j <? Z.of_nat (length a))) eqn:E2.
    + apply list_lookup_insert_ne. lia.
    + destruct ((- Z.of_nat (length a) <=? j) && (j <? 0)) eqn:E3; [| reflexivity].
      apply andb_true_iff in E3 as [_ E3]. apply Z.ltb_lt in E3. lia.
  - destruct ((- Z.of_nat (length a) <=? i) && (i <? 0)) eqn:E2; [| discriminate].
    apply andb_true_iff in E2 as [_ E2]. apply Z.ltb_lt in E2. lia.
Qed.

Lemma mm_val_of_is_Some (o r : list complex) (k : Z) :
  2 <= k < Z.of_nat (length o) -> length r = length o ->
  is_Some (mm_val_of o r k).
Proof.
  intros Hk Hlen. unfold mm_val_of.
  assert (forall a : list complex, length a = length o ->
            forall j, 0 <= j <= 2 -> is_Some (np_getitem a (k - j))) as Hget.
  { intros a Ha j Hj. apply np_getitem_is_Some. rewrite Ha. lia. }
  destruct (Hget r Hlen 0 ltac:(lia)) as [r_k E1]. rewrite Z.sub_0_r in E1.
  destruct (Hget r Hlen 2 ltac:(lia)) as [r_k2 E2].
  destruct (Hget o eq_refl 1 ltac:(lia)) as [o_k1 E3].
  destruct (Hget o eq_refl 0 ltac:(lia)) as [o_k E4]. rewrite Z.sub_0_r in E4.
  destruct (Hget o eq_refl 2 ltac:(lia)) as [o_k2 E5].
  destruct (Hget r Hlen 1 ltac:(lia)) as [r_k1 E6].
  rewrite E1; cbn. rewrite E2; cbn. rewrite E3; cbn.
  rewrite E4; cbn. rewrite E5; cbn. rewrite E6; cbn. eauto.
Qed.

(** Under the loop guard the only subscript that can raise is the read of
    [samples]: the stores and the look-backs stay inside the work arrays. *)
Lemma body_is_Some (n : nat) (s : State) :
  well_formed samples n s -> guard samples s = true ->
  is_Some (np_getitem samples (read_index s)) ->
  is_Some (body sps samples s).
Proof.
  intros (Ho & Hr & Hk & _) Hg [v Hv].
  apply guard_true in Hg as [Hg _]. unfold L in Hg.
  unfold body. rewrite Hv; cbn.
  rewrite np_setitem_inside by lia. cbn.
  rewrite np_getitem_inside by (rewrite length_insert; lia).
  rewrite list_lookup_insert_eq by lia. cbn.
  rewrite np_setitem_inside by lia. cbn.
  destruct (mm_val_of_is_Some
              (<[Z.to_nat (i_out s) := v]> (out s))
              (<[Z.to_nat (i_out s) := slicer v]> (out_rail s)) (i_out s))
    as [mm Hmm].
  - rewrite length_insert. lia.
  - rewrite !length_insert. congruence.
  - rewrite Hmm. cbn. eauto.
Qed.

Lemma body_None (n : nat) (s : State) :
  well_formed samples n s -> guard samples s = true ->
  (body sps samples s = None <-> np_getitem samples (read_index s) = None).
Proof.
  intros Hw Hg. split.
  - intros Hb. apply eq_None_not_Some. intros Hs.
    destruct (body_is_Some n s Hw Hg Hs) as [s' Hs']. congruence.
  - intros Hv. unfold body. rewrite Hv. reflexivity.
Qed.

(** ** The fraction [mu] *)


Lemma init_well_formed : well_formed samples 0 (init samples).
Proof.
  unfold well_formed, init, np_zeros; cbn. rewrite !length_replicate.
  repeat split; try lia; lra.
Qed.

Lemma body_well_formed (n : nat) (s s' : State) :
  well_formed samples n s -> body sps samples s = Some s' ->
  well_formed samples (S n) s'.
Proof.
  intros (Ho & Hr & Hk & _) Hb.
  destruct (body_lengths s s' Hb) as [Ho' Hr'].
  pose proof (body_i_out s s' Hb) as Hk'.
  apply body_Some in Hb as (v & mm & _ & _ & _ & _ & Hmu & _).
  unfold well_formed. rewrite Ho', Hr', Hk', Hmu.
  repeat split; try lia; apply frac_unit.
Qed.

Lemma reaches_well_formed (n : nat) (s : State) :
  reaches sps samples n s -> well_formed samples n s.
Proof.
  revert n s. apply reaches_ind.
  - apply init_well_formed.
  - intros n s s' _ IH _ Hb. eapply body_well_formed; eauto.
Qed.

Lemma reaches_functional (n : nat) (s1 s2 : State) :
  reaches sps samples n s1 -> reaches sps samples n s2 -> s1 = s2.
Proof. unfold reaches. congruence. Qed.

Lemma reaches_fraction (n : nat) (s : State) :
  reaches sps samples n s -> py_int (mu s) = 0 /\ read_index s = i_in s.
Proof.
  intros Hr. apply reaches_well_formed in Hr as (_ & _ & _ & H0 & H1).
  assert (py_int (mu s) = 0) as Hz by (apply py_int_unit; assumption).
  split; [exact Hz |]. unfold read_index. rewrite Hz. lia.
Qed.


(** ** The read of the Input Stream *)

(** The guard keeps the read strictly below [len(samples) - 16]. *)
Lemma read_index_below_margin (n : nat) (s : State) :
  reaches sps samples n s -> guard samples s = true ->
  read_index s < L samples - lookahead_margin.
Proof.
  intros Hr Hg. destruct (reaches_fraction n s Hr) as [_ Hi].
  apply guard_true in Hg as [_ Hg]. lia.
Qed.

(** ** Bounded samples *)

Lemma np_setitem_Forall {A : Type} (P : A -> Prop) (a a' : list A) (i : Z) (v : A) :
  Forall P a -> P v -> np_setitem a i v = Some a' -> Forall P a'.
Proof.
  unfold np_setitem. intros Ha Hv H.
  destruct ((0 <=? i) && (i <? Z.of_nat (length a))).
  - inversion H. now apply Forall_insert.
  - destruct ((- Z.of_nat (length a) <=? i) && (i <? 0)); [| discriminate].
    inversion H. now apply Forall_insert.
Qed.

Lemma np_getitem_Forall {A : Type} (P : A -> Prop) (a : list A) (i : Z) (v : A) :
  Forall P a -> np_getitem a i = Some v -> P v.
Proof.
  intros Ha Hv. apply np_getitem_elem in Hv.
  rewrite Forall_forall in Ha. auto.
Qed.

Lemma bounded_C0 (B : Q) : (0 <= B)%Q -> bounded B C0.
Proof. intros HB. unfold bounded, C0; cbn. repeat split; lra. Qed.

Lemma is_rail_C0 : is_rail C0.
Proof. unfold is_rail, C0; cbn. auto. Qed.

(** The detector output is at most six times the largest component. *)
Lemma mm_val_bound (B : Q) (o r : list complex) (k : Z) (mm : Q) :
  Forall (bounded B) o -> Forall is_rail r ->
  mm_val_of o r k = Some mm ->
  (- (6 * B) <= mm)%Q /\ (mm <= 6 * B)%Q.
Proof.
  intros Ho Hr. unfold mm_val_of. intros H.
  bind_inv H r_k E1. bind_inv H r_k2 E2. bind_inv H o_k1 E3.
  bind_inv H o_k E4. bind_inv H o_k2 E5. bind_inv H r_k1 E6.
  inversion H; subst mm; clear H.
  apply (np_getitem_Forall _ _ _ _ Hr) in E1, E2, E6.
  apply (np_getitem_Forall _ _ _ _ Ho) in E3, E4, E5.
  destruct r_k as [a1 b1], r_k2 as [a2 b2], r_k1 as [a3 b3].
  destruct o_k as [x1 y1], o_k1 as [x2 y2], o_k2 as [x3 y3].
  unfold is_rail, bounded in *. cbn in *.
  destruct E1 as [[-> | ->] [-> | ->]], E2 as [[-> | ->] [-> | ->]],
           E6 as [[-> | ->] [-> | ->]]; split; lra.
Qed.

Section Bounded.

Variable B : Q.
Hypothesis B_nonneg : (0 <= B)%Q.
Hypothesis B_small : (6 * gain * B <= sps)%Q.
Hypothesis samples_bounded : Forall (bounded B) samples.

Lemma reaches_bounded (n : nat) (s : State) :
  reaches sps samples n s ->
  Forall (bounded B) (out s) /\ Forall is_rail (out_rail s).
Proof.
  revert n s. apply reaches_ind.
  - unfold init, np_zeros; cbn. split; apply Forall_replicate.
    + now apply bounded_C0.
    + apply is_rail_C0.
  - intros n s s' _ [IHo IHr] _ Hb.
    apply body_Some in Hb as (v & mm & Hv & Ho & (o_k & _ & Hr) & _).
    split.
    + eapply np_setitem_Forall; [exact IHo | | exact Ho].
      exact (np_getitem_Forall (bounded B) _ _ _ samples_bounded Hv).
    + eapply np_setitem_Forall; [exact IHr | apply slicer_is_rail | exact Hr].
Qed.

(** With samples this small, [mu] stays non-negative before the split. *)
Lemma mu_updated_nonneg (n : nat) (s s' : State) (mm : Q) :
  reaches sps samples n s -> body sps samples s = Some s' ->
  mm_val_of (out s') (out_rail s') (i_out s) = Some mm ->
  (0 <= mu_updated sps s mm)%Q.
Proof.
  intros Hr Hb Hmm.
  pose proof (reaches_well_formed n s Hr) as (_ & _ & _ & Hmu & _).
  destruct (reaches_bounded n s Hr) as [Ho Hl].
  apply body_Some in Hb as (v & mm' & Hv & Hso & (o_k & _ & Hsr) & _).
  assert (Forall (bounded B) (out s')) as Ho'.
  { eapply np_setitem_Forall; [exact Ho | | exact Hso].
    exact (np_getitem_Forall (bounded B) _ _ _ samples_bounded Hv). }
  assert (Forall is_rail (out_rail s')) as Hl'.
  { eapply np_setitem_Forall; [exact Hl | apply slicer_is_rail | exact Hsr]. }
  destruct (mm_val_bound B _ _ _ _ Ho' Hl' Hmm) as [Hlo _].
  unfold mu_updated. unfold gain in *. lra.
Qed.

Lemma body_i_in_le (n : nat) (s s' : State) :
  reaches sps samples n s -> body sps samples s = Some s' -> i_in s <= i_in s'.
Proof.
  intros Hr Hb. pose proof Hb as Hb'.
  apply body_Some in Hb' as (v & mm & _ & _ & _ & Hmm & _ & Hi & _).
  pose proof (mu_updated_nonneg n s s' mm Hr Hb Hmm) as H0.
  apply np_floor_nonneg in H0. lia.
Qed.

Lemma reaches_i_in_nonneg (n : nat) (s : State) :
  reaches sps samples n s -> 0 <= i_in s.
Proof.
  revert n s. apply reaches_ind.
  - cbn. lia.
  - intros n s s' Hr IH _ Hb. pose proof (body_i_in_le n s s' Hr Hb). lia.
Qed.

End Bounded.

(** C4 (amended). When every sample has both components of magnitude at
    most [B] and [6 * gain * B <= sps], the cursor [i_in] after an iteration
    is at least the cursor before it, for every pair of consecutive loop
    states of the run. *)
Theorem input_index_non_decreasing (B : Q) (n : nat) (s s' : State) :
  (0 <= B)%Q -> (6 * gain * B <= sps)%Q -> Forall (bounded B) samples ->
  reaches sps samples n s -> reaches sps samples (S n) s' ->
  i_in s <= i_in s'.
Proof.
  intros HB Hsmall Hbd Hr Hr'.
  apply reaches_S_inv in Hr' as (s0 & Hr0 & _ & Hb).
  rewrite (reaches_functional n s s0 Hr Hr0).
  now apply (body_i_in_le B HB Hsmall Hbd n).
Qed.

(** C5 (amended). When every sample has both components of magnitude at
    most [B] and [6 * gain * B <= sps], the subscript of the read of every
    iteration that executes is an in-bounds index of the Input Stream:
    non-negative and strictly below [L - 16]. *)
Theorem read_index_in_bounds (B : Q) (n : nat) (s : State) :
  (0 <= B)%Q -> (6 * gain * B <= sps)%Q -> Forall (bounded B) samples ->
  reaches sps samples n s -> guard samples s = true ->
  0 <= read_index s < L samples - lookahead_margin /\
  np_getitem samples (read_index s) = samples !! Z.to_nat (read_index s) /\
  is_Some (samples !! Z.to_nat (read_index s)).
Proof.
  intros HB Hsmall Hbd Hr Hg.
  pose proof (read_index_below_margin n s Hr Hg) as Hup.
  pose proof (reaches_i_in_nonneg B HB Hsmall Hbd n s Hr) as Hlo.
  destruct (reaches_fraction n s Hr) as [_ Hi].
  unfold lookahead_margin, L in *.
  split; [lia |]. split.
  - apply np_getitem_inside. lia.
  - apply lookup_lt_is_Some. lia.
Qed.

(** ** Termination *)

Lemma loop_unfold (fuel : nat) (s : State) :
  loop sps samples fuel s =
  if guard samples s then
    match fuel with
    | O => OutOfFuel
    | S fuel' =>
        match body sps samples s with
        | Some s' => loop sps samples fuel' s'
        | None => IndexError
        end
    end
  else Done s.
Proof. destruct fuel; reflexivity. Qed.

(** From a state of the run, a budget of [L - i_out] iterations reaches the
    state in which the loop stops, and tells how it stops. *)
Lemma loop_stops (fuel : nat) :
  forall m s,
    reaches sps samples m s -> L samples - i_out s <= Z.of_nat fuel ->
    exists n s',
      reaches sps samples n s' /\
      ((guard samples s' = false /\ loop sps samples fuel s = Done s') \/
       (guard samples s' = true /\ body sps samples s' = None /\
        loop sps samples fuel s = IndexError)).
Proof.
  induction fuel as [| fuel IH]; intros m s Hr Hfuel; rewrite loop_unfold.
  - destruct (guard samples s) eqn:Hg.
    + apply guard_true in Hg. lia.
    + exists m, s. auto.
  - destruct (guard samples s) eqn:Hg.
    + destruct (body sps samples s) as [s1 |] eqn:Hb.
      * apply (IH (S m) s1).
        -- eapply reaches_S; eauto.
        -- rewrite (body_i_out s s1 Hb). lia.
      * exists m, s. split; [exact Hr | right; auto].
    + exists m, s. auto.
Qed.

(** The budget of [run] is never exhausted. *)
Lemma loop_enough_fuel : run sps samples <> OutOfFuel.
Proof.
  destruct (loop_stops (length samples) 0 (init samples) reaches_0) as (n & s & _ & H).
  - unfold L. cbn. lia.
  - unfold run. destruct H as [[_ ->] | (_ & _ & ->)]; discriminate.
Qed.


(** The number of complete iterations is at most [L - 2]. *)
Lemma reaches_count (n : nat) (s : State) :
  reaches sps samples n s -> Z.of_nat n <= Z.max 0 (L samples - 2).
Proof.
  intros Hr. destruct n as [| n]; [lia |].
  apply reaches_S_inv in Hr as (s0 & Hr0 & Hg & _).
  apply reaches_well_formed in Hr0 as (_ & _ & Hk & _).
  apply guard_true in Hg as [Hg _]. lia.
Qed.


(** ** The loop as a relation *)


Lemma loop_sound (fuel : nat) :
  forall s, loop sps samples fuel s <> OutOfFuel ->
            while_exec sps samples s (loop sps samples fuel s).
Proof.
  induction fuel as [| fuel IH]; intros s; rewrite loop_unfold;
    destruct (guard samples s) eqn:Hg; intros Hne;
    try (now apply while_exit); try congruence.
  destruct (body sps samples s) as [s' |] eqn:Hb.
  - eapply while_iter; eauto.
  - now apply while_raise.
Qed.

Lemma run_exec : while_exec sps samples (init samples) (run sps samples).
Proof. apply loop_sound. apply loop_enough_fuel. Qed.


(** ** Short streams and the first iteration *)

Lemma output_of_init : output_of (init samples) = [].
Proof.
  unfold output_of, np_slice, init; cbn [out i_out].
  apply drop_ge. rewrite length_take. lia.
Qed.

(** C2 (amended). For every Input Stream of at most 16 samples (the margin
    of the guard) the loop runs no iteration, hence reads nothing, and the
    Output Sequence is empty. *)
Theorem short_stream_empty_output :
  L samples <= lookahead_margin ->
  guard samples (init samples) = false /\
  run sps samples = Done (init samples) /\
  recovered sps samples = Some [].
Proof.
  intros HL.
  assert (guard samples (init samples) = false) as Hg.
  { apply guard_false. right. cbn. lia. }
  assert (run sps samples = Done (init samples)) as Hrun.
  { unfold run. rewrite loop_unfold, Hg. reflexivity. }
  repeat split; try assumption.
  unfold recovered. rewrite Hrun, output_of_init. reflexivity.
Qed.

Lemma run_Done_reaches (s : State) :
  run sps samples = Done s ->
  exists n, reaches sps samples n s /\ guard samples s = false.
Proof.
  intros Hrun.
  destruct (loop_stops (length samples) 0 (init samples) reaches_0) as (n & s' & Hr & H).
  { unfold L. cbn. lia. }
  fold (run sps samples) in H. rewrite Hrun in H.
  destruct H as [[Hg He] | (_ & _ & He)]; [| discriminate].
  inversion He; subst s'. eauto.
Qed.

(** The Output Sequence has one entry per complete iteration. *)
Lemma output_length (n : nat) (s : State) :
  reaches sps samples n s -> length (output_of s) = n.
Proof.
  intros Hr. pose proof (reaches_count n s Hr) as Hn.
  apply reaches_well_formed in Hr as (Ho & _ & Hk & _).
  unfold output_of, np_slice. rewrite length_drop, length_take, Ho, Hk.
  unfold L in Hn. lia.
Qed.

Lemma first_iteration :
  lookahead_margin < L samples ->
  guard samples (init samples) = true /\
  exists s1, body sps samples (init samples) = Some s1 /\
             np_getitem (out s1) 2 = samples !! 0%nat /\
             is_Some (samples !! 0%nat).
Proof.
  intros HL. unfold lookahead_margin in HL.
  assert (guard samples (init samples) = true) as Hg.
  { apply guard_true. cbn. unfold lookahead_margin. lia. }
  split; [exact Hg |].
  assert (read_index (init samples) = 0) as Hi by reflexivity.
  assert (np_getitem samples 0 = samples !! 0%nat) as H0.
  { rewrite np_getitem_inside by (unfold L in HL; lia). reflexivity. }
  assert (is_Some (samples !! 0%nat)) as Hs.
  { apply lookup_lt_is_Some. unfold L in HL. lia. }
  destruct (body_is_Some 0 (init samples) init_well_formed Hg) as [s1 Hb].
  { rewrite Hi, H0. exact Hs. }
  exists s1. split; [exact Hb |]. split; [| exact Hs].
  apply body_Some in Hb as (v & mm & Hv & Ho & _).
  rewrite Hi, H0 in Hv. rewrite Hv.
  change 2 with (i_out (init samples)).
  eapply np_getitem_setitem_eq; eauto.
Qed.

(** C7 (amended). No validation precedes the loop: for every [sps], also
    below 1, and every Input Stream longer than the margin, the first
    iteration executes and stores [samples[0]] as the first output, and a
    run that completes yields a non-empty Output Sequence.  The gain and the
    margin are the constants 0.3 and 16 of the code, not inputs. *)
Theorem sps_below_one_not_rejected :
  (sps < 1)%Q -> lookahead_margin < L samples ->
  (exists s1, reaches sps samples 1 s1 /\
              np_getitem (out s1) 2 = samples !! 0%nat /\
              is_Some (samples !! 0%nat)) /\
  (forall s, run sps samples = Done s -> (1 <= length (output_of s))%nat).
Proof.
  intros _ HL.
  destruct (first_iteration HL) as (Hg & s1 & Hb & Hout & Hs).
  split.
  - exists s1. split; [| auto].
    apply (reaches_S 0 (init samples) s1 reaches_0 Hg Hb).
  - intros s Hrun.
    apply run_Done_reaches in Hrun as (n & Hr & Hgs).
    rewrite (output_length n s Hr).
    destruct n as [| n]; [| lia].
    unfold reaches in Hr. cbn in Hr. inversion Hr; subst s. congruence.
Qed.

End LoopFacts.

(** ** The slicer *)

(** C6 (amended). The slicer is strict at zero: a component gets the level 1
    exactly when it is strictly positive, and the level 0 when it is zero or
    negative. *)
Theorem slicer_strict (v : complex) :
  (re (slicer v) = 1%Q <-> (0 < re v)%Q) /\
  (re (slicer v) = 0%Q <-> (re v <= 0)%Q) /\
  (im (slicer v) = 1%Q <-> (0 < im v)%Q) /\
  (im (slicer v) = 0%Q <-> (im v <= 0)%Q).
Proof.
  unfold slicer; cbn [re im].
  rewrite <- !Qgtb_true, <- !Qgtb_false.
  destruct (Qgtb (re v) 0), (Qgtb (im v) 0); cbn;
    repeat split; intros; congruence.
Qed.

(** * Concrete runs *)

(** ** The five-symbol scenario *)

Lemma stream_C1_symbols : map (fun bit => bit * 2 - 1) bits_C1 = [1; -1; 1; 1; -1].
Proof. reflexivity. Qed.

Lemma stream_C1_length : L stream_C1 = 40.
Proof. reflexivity. Qed.

Lemma stream_C1_samples :
  stream_C1 =
  map of_real
    ([1%Q] ++ replicate 7 0%Q ++ [(-1)%Q] ++ replicate 7 0%Q ++ [1%Q] ++
     replicate 7 0%Q ++ [1%Q] ++ replicate 7 0%Q ++ [(-1)%Q] ++ replicate 7 0%Q).
Proof. reflexivity. Qed.

Lemma stream_C1_bounded : Forall (bounded 1) stream_C1.
Proof.
  rewrite stream_C1_samples. cbn.
  repeat (apply Forall_cons; split;
          [unfold bounded; cbn; repeat split; lra |]).
  apply Forall_nil. exact I.
Defined.

(** C1 (amended). On the pulse train of the symbols [1, -1, 1, 1, -1] at
    [sps = 8] the loop completes four iterations and stops with [i_in = 31]
    (31 + 16 is not below 40); the Output Sequence is [1, -1, 0, 0], which
    the slicer maps to the levels [1, 0, 0, 0]. *)
Theorem five_symbol_scenario_output :
  (exists s, run 8 stream_C1 = Done s /\ i_out s = 6 /\ i_in s = 31) /\
  recovered 8 stream_C1 = Some [of_real 1; of_real (-1); C0; C0] /\
  (map slicer <$> recovered 8 stream_C1) = Some [of_real 1; C0; C0; C0].
Proof.
  split; [| split].
  - eexists. split; [vm_compute; reflexivity | split; reflexivity].
  - vm_compute. reflexivity.
  - vm_compute. reflexivity.
Qed.

(** C1, as stated, fails: the Output Sequence has four entries, so no
    entry-wise mapping of it gives the five transmitted symbols. *)
Lemma five_symbol_scenario_mismatch :
  recovered 8 stream_C1 = Some [of_real 1; of_real (-1); C0; C0] /\
  forall f : complex -> Q,
    (map f <$> recovered 8 stream_C1) <> Some [1; -1; 1; 1; -1]%Q.
Proof.
  assert (recovered 8 stream_C1 = Some [of_real 1; of_real (-1); C0; C0]) as E
    by (vm_compute; reflexivity).
  split; [exact E |].
  intros f. rewrite E. cbn. intros H. inversion H.
Qed.

(** ** Seventeen zeros *)

(** C2, as stated, fails: 17 samples are fewer than [2*8 + 16], yet one
    iteration runs and the Output Sequence has one entry. *)
Lemma zeros17_not_empty :
  (inject_Z (L stream_zeros17) < 2 * 8 + inject_Z lookahead_margin)%Q /\
  recovered 8 stream_zeros17 = Some [C0] /\
  recovered 8 stream_zeros17 <> Some [].
Proof.
  split; [reflexivity |].
  assert (recovered 8 stream_zeros17 = Some [C0]) as E by (vm_compute; reflexivity).
  split; [exact E | rewrite E; discriminate].
Qed.

(** C7, as stated, fails: with [sps = 0] the loop runs to [i_out = 17] and
    returns fifteen samples. *)
Lemma sps_zero_accepted :
  (0 < 1)%Q /\
  recovered 0 stream_zeros17 = Some (replicate 15 C0) /\
  exists s, run 0 stream_zeros17 = Done s /\ i_out s = 17.
Proof.
  split; [reflexivity |]. split; [vm_compute; reflexivity |].
  eexists. split; [vm_compute; reflexivity | reflexivity].
Qed.

(** ** A large swing *)

Lemma swing_length : L stream_swing = 25.
Proof. reflexivity. Qed.

(** C4, as stated, fails: the cursor is 8 after the first iteration and
    -284 after the second. *)
Lemma swing_input_index_decreases :
  (i_in <$> steps 8 stream_swing 1 (init stream_swing)) = Some 8 /\
  (i_in <$> steps 8 stream_swing 2 (init stream_swing)) = Some (-284) /\
  exists s1 s2, reaches 8 stream_swing 1 s1 /\ reaches 8 stream_swing 2 s2 /\
                i_in s2 < i_in s1.
Proof.
  split; [vm_compute; reflexivity |]. split; [vm_compute; reflexivity |].
  eexists. eexists.
  split; [unfold reaches; vm_compute; reflexivity |].
  split; [unfold reaches; vm_compute; reflexivity |].
  reflexivity.
Qed.

(** C5, as stated, fails: the third iteration passes the guard and reads
    at -284, outside the 25 samples. *)
Lemma swing_read_out_of_bounds :
  exists s, reaches 8 stream_swing 2 s /\
            guard stream_swing s = true /\
            read_index s = -284 /\
            np_getitem stream_swing (read_index s) = None.
Proof.
  eexists. split; [unfold reaches; vm_compute; reflexivity |].
  repeat split; vm_compute; reflexivity.
Qed.


(** ** Instances *)

(** The theorems above, applied to runs of the five-symbol stream and of
    the seventeen zeros. *)



Lemma input_index_non_decreasing_witness :
  exists s s', reaches 8 stream_C1 1 s /\ reaches 8 stream_C1 2 s' /\
               i_in s <= i_in s'.
Proof.
  eexists. eexists.
  split; [unfold reaches; vm_compute; reflexivity |].
  split; [unfold reaches; vm_compute; reflexivity |].
  apply (input_index_non_decreasing 8 stream_C1 1 1).
  - unfold Qle; cbn; lia.
  - unfold Qle; cbn; lia.
  - exact stream_C1_bounded.
  - unfold reaches; vm_compute; reflexivity.
  - unfold reaches; vm_compute; reflexivity.
Defined.

Lemma read_index_in_bounds_witness :
  exists s, reaches 8 stream_C1 2 s /\
            0 <= read_index s < L stream_C1 - lookahead_margin.
Proof.
  eexists. split; [unfold reaches; vm_compute; reflexivity |].
  apply (read_index_in_bounds 8 stream_C1 1 2).
  - unfold Qle; cbn; lia.
  - unfold Qle; cbn; lia.
  - exact stream_C1_bounded.
  - unfold reaches; vm_compute; reflexivity.
  - vm_compute; reflexivity.
Defined.


Lemma short_stream_empty_output_witness :
  L (replicate 16 C0) <= lookahead_margin /\
  recovered 8 (replicate 16 C0) = Some [].
Proof.
  assert (L (replicate 16 C0) <= lookahead_margin) as H
    by (vm_compute; discriminate).
  split; [exact H |].
  exact (proj2 (proj2 (short_stream_empty_output 8 (replicate 16 C0) H))).
Defined.

Lemma sps_below_one_not_rejected_witness :
  (1 # 2 < 1)%Q /\ lookahead_margin < L stream_zeros17 /\
  exists s1, reaches (1 # 2) stream_zeros17 1 s1 /\
             np_getitem (out s1) 2 = stream_zeros17 !! 0%nat /\
             is_Some (stream_zeros17 !! 0%nat).
Proof.
  assert ((1 # 2 < 1)%Q) as H1 by reflexivity.
  assert (lookahead_margin < L stream_zeros17) as H2 by reflexivity.
  split; [exact H1 |]. split; [exact H2 |].
  exact (proj1 (sps_below_one_not_rejected (1 # 2) stream_zeros17 H1 H2)).
Defined.

(** ** The slicer at zero *)

(** C6, as stated, fails: a sample with both components zero gets the
    level 0 on both axes. *)
Lemma slicer_zero_level :
  slicer C0 = C0 /\
  ~ (re (slicer C0) == 1)%Q /\ ~ (im (slicer C0) == 1)%Q.
Proof.
  split; [reflexivity |]. split; intros H; discriminate H.
Qed.

(** * Further properties of the loop *)

Section LoopInvariants.

Variable sps : Q.
Variable samples : list complex.

(** ** What an iteration stores *)

Lemma body_stores (n : nat) (s s' : State) :
  well_formed samples n s -> guard samples s = true ->
  body sps samples s = Some s' ->
  exists v,
    np_getitem samples (i_in s) = Some v /\
    out s' = <[Z.to_nat (i_out s) := v]> (out s) /\
    out_rail s' = <[Z.to_nat (i_out s) := slicer v]> (out_rail s).
Proof.
  intros Hw Hg Hb.
  destruct Hw as (Ho & Hr & Hk & H0 & H1).
  apply guard_true in Hg as [Hg _]. unfold L in Hg.
  assert (read_index s = i_in s) as Hi.
  { unfold read_index. rewrite (py_int_unit _ H0 H1). lia. }
  apply body_Some in Hb as (v & mm & Hv & Hso & (o_k & Hk' & Hsr) & _).
  rewrite Hi in Hv.
  rewrite (np_getitem_setitem_eq _ _ _ _ Hso) in Hk'. inversion Hk'; subst o_k.
  rewrite np_setitem_inside in Hso, Hsr by lia.
  inversion Hso. inversion Hsr. eauto.
Qed.

Lemma slice_snoc {A : Type} (a : list A) (k : nat) (v : A) :
  (2 <= k < length a)%nat ->
  np_slice (<[k := v]> a) 2 (Z.of_nat k + 1) = np_slice a 2 (Z.of_nat k) ++ [v].
Proof.
  intros Hk. unfold np_slice.
  replace (Z.to_nat (Z.of_nat k + 1)) with (S k) by lia.
  rewrite Nat2Z.id.
  rewrite (take_S_r _ k v) by (apply list_lookup_insert_eq; lia).
  rewrite take_insert_ge by lia.
  apply drop_app_le. rewrite length_take. change (Z.to_nat 2) with 2%nat. lia.
Qed.

Lemma body_output_snoc (n : nat) (s s' : State) :
  reaches sps samples n s -> guard samples s = true ->
  body sps samples s = Some s' ->
  exists v,
    np_getitem samples (i_in s) = Some v /\
    output_of s' = output_of s ++ [v] /\
    np_slice (out_rail s') 2 (i_out s') =
      np_slice (out_rail s) 2 (i_out s) ++ [slicer v].
Proof.
  intros Hr Hg Hb.
  pose proof (reaches_well_formed sps samples n s Hr) as Hw.
  destruct (body_stores n s s' Hw Hg Hb) as (v & Hv & Ho' & Hr').
  pose proof (body_i_out sps samples s s' Hb) as Hk'.
  destruct Hw as (Ho & Hl & Hk & _).
  apply guard_true in Hg as [Hg _]. unfold L in Hg.
  exists v. split; [exact Hv |].
  unfold output_of. rewrite Ho', Hr', Hk', Hk.
  replace (Z.to_nat (2 + Z.of_nat n)) with (2 + n)%nat by lia.
  replace (2 + Z.of_nat n) with (Z.of_nat (2 + n)) by lia.
  split; apply slice_snoc; lia.
Qed.


(** X2. The loop never makes up a value: every entry of the Output Sequence
    is an element of the Input Stream. *)
Theorem outputs_are_input_samples (n : nat) (s : State) :
  reaches sps samples n s -> Forall (fun v => v ∈ samples) (output_of s).
Proof.
  revert n s. apply (reaches_ind sps samples).
  - rewrite output_of_init. constructor.
  - intros n s s' Hr IH Hg Hb.
    destruct (body_output_snoc n s s' Hr Hg Hb) as (v & Hv & -> & _).
    apply Forall_app. split; [exact IH |].
    constructor; [| constructor]. eapply np_getitem_elem; eauto.
Qed.

(** X3. The decisions kept in [out_rail] are the slicer applied to the
    outputs, entry by entry. *)
Theorem decisions_are_sliced_outputs (n : nat) (s : State) :
  reaches sps samples n s ->
  np_slice (out_rail s) 2 (i_out s) = map slicer (output_of s).
Proof.
  revert n s. apply (reaches_ind sps samples).
  - rewrite output_of_init. unfold np_slice, init; cbn [out_rail i_out].
    apply drop_ge. rewrite length_take. lia.
  - intros n s s' Hr IH Hg Hb.
    destruct (body_output_snoc n s s' Hr Hg Hb) as (v & Hv & -> & ->).
    rewrite IH, map_app. reflexivity.
Qed.

(** X4. The two placeholder entries and every entry from [i_out] on are
    still zero, in [out] and in [out_rail]: the loop writes each work array
    only at [i_out]. *)
Theorem untouched_entries_are_zero (n : nat) (s : State) (j : nat) :
  reaches sps samples n s ->
  (j < 2 \/ Z.to_nat (i_out s) <= j)%nat -> (j < length samples + 10)%nat ->
  out s !! j = Some C0 /\ out_rail s !! j = Some C0.
Proof.
  intros Hr. revert n s Hr j. apply (reaches_ind sps samples
    (fun n s => forall j, (j < 2 \/ Z.to_nat (i_out s) <= j)%nat ->
       (j < length samples + 10)%nat ->
       out s !! j = Some C0 /\ out_rail s !! j = Some C0)).
  - intros j _ Hj. unfold init, np_zeros; cbn [out out_rail].
    split; apply lookup_replicate_2; exact Hj.
  - intros n s s' Hr IH Hg Hb j Hj Hlen.
    pose proof (reaches_well_formed sps samples n s Hr) as Hw.
    destruct (body_stores n s s' Hw Hg Hb) as (v & _ & -> & ->).
    pose proof (body_i_out sps samples s s' Hb) as Hk'.
    destruct Hw as (_ & _ & Hk & _).
    rewrite !list_lookup_insert_ne by lia.
    apply IH; lia.
Qed.

(** ** How many outputs *)

(** X5. A run that completes returns exactly [i_out - 2] samples, one per
    iteration, and never more than [L - 2] of them. *)
Theorem output_count (o : list complex) :
  recovered sps samples = Some o ->
  (exists s, run sps samples = Done s /\ Z.of_nat (length o) = i_out s - 2) /\
  (length o <= length samples - 2)%nat.
Proof.
  unfold recovered. intros H.
  destruct (run sps samples) as [s | |] eqn:Hrun; try discriminate.
  inversion H; subst o; clear H.
  destruct (run_Done_reaches sps samples s Hrun) as (n & Hr & _).
  pose proof (output_length sps samples n s Hr) as Hlen.
  pose proof (reaches_count sps samples n s Hr) as Hn.
  pose proof (reaches_well_formed sps samples n s Hr) as (_ & _ & Hk & _).
  unfold L in Hn. split.
  - exists s. split; [reflexivity | lia].
  - lia.
Qed.

(** ** The accumulator *)



Section BoundedMore.

Variable B : Q.
Hypothesis B_nonneg : (0 <= B)%Q.
Hypothesis samples_bounded : Forall (bounded B) samples.

Lemma body_mm_bound (n : nat) (s s' : State) (mm : Q) :
  reaches sps samples n s -> body sps samples s = Some s' ->
  mm_val_of (out s') (out_rail s') (i_out s) = Some mm ->
  (- (6 * B) <= mm)%Q /\ (mm <= 6 * B)%Q.
Proof.
  intros Hr Hb Hmm.
  destruct (reaches_bounded sps samples B B_nonneg samples_bounded n s Hr) as [Ho Hl].
  apply body_Some in Hb as (v & mm' & Hv & Hso & (o_k & _ & Hsr) & _).
  apply (mm_val_bound B (out s') (out_rail s') (i_out s) mm); [| | exact Hmm].
  - eapply np_setitem_Forall; [exact Ho | | exact Hso].
    exact (np_getitem_Forall (bounded B) _ _ _ samples_bounded Hv).
  - eapply np_setitem_Forall; [exact Hl | apply slicer_is_rail | exact Hsr].
Qed.


End BoundedMore.

(** X7. With every sample component of magnitude at most [B], the error
    term of every iteration has magnitude at most [6 * B]. *)
Theorem detector_bounded (B : Q) (n : nat) (s s' : State) (mm : Q) :
  (0 <= B)%Q -> Forall (bounded B) samples ->
  reaches sps samples n s -> body sps samples s = Some s' ->
  mm_val_of (out s') (out_rail s') (i_out s) = Some mm ->
  (- (6 * B) <= mm)%Q /\ (mm <= 6 * B)%Q.
Proof.
  intros HB Hbd. now apply body_mm_bound.
Qed.


(** ** Runs that cannot raise *)

Lemma bounded_run_Done (B : Q) :
  (0 <= B)%Q -> (6 * gain * B <= sps)%Q -> Forall (bounded B) samples ->
  exists n s, reaches sps samples n s /\ guard samples s = false /\
              run sps samples = Done s.
Proof.
  intros HB Hsmall Hbd.
  destruct (loop_stops sps samples (length samples) 0 (init samples)
              (reaches_0 sps samples)) as (n & s & Hr & H).
  { unfold L. cbn. lia. }
  fold (run sps samples) in H.
  destruct H as [[Hg Hrun] | (Hg & Hb & _)]; [eauto |].
  exfalso.
  pose proof (read_index_below_margin sps samples n s Hr Hg) as Hup.
  pose proof (reaches_i_in_nonneg sps samples B HB Hsmall Hbd n s Hr) as Hlo.
  destruct (reaches_fraction sps samples n s Hr) as [_ Hi].
  apply (body_None sps samples n s (reaches_well_formed sps samples n s Hr) Hg) in Hb.
  apply np_getitem_None in Hb. unfold L, lookahead_margin in *. lia.
Qed.

(** X9. When every sample component has magnitude at most [B] and
    [6 * gain * B <= sps], the run raises no IndexError: it ends with the
    guard false and returns an Output Sequence. *)
Theorem bounded_run_completes (B : Q) :
  (0 <= B)%Q -> (6 * gain * B <= sps)%Q -> Forall (bounded B) samples ->
  exists s, run sps samples = Done s /\
            (L samples <= i_out s \/ L samples <= i_in s + lookahead_margin) /\
            recovered sps samples = Some (output_of s).
Proof.
  intros HB Hsmall Hbd.
  destruct (bounded_run_Done B HB Hsmall Hbd) as (n & s & _ & Hg & Hrun).
  exists s. split; [exact Hrun |]. split.
  - exact (proj1 (guard_false samples s) Hg).
  - unfold recovered. rewrite Hrun. reflexivity.
Qed.


(** ** The first iteration *)

Lemma first_mm_val (v : complex) (o r : list complex) (mm : Q) :
  np_getitem o 2 = Some v -> np_getitem o 1 = Some C0 -> np_getitem o 0 = Some C0 ->
  np_getitem r 2 = Some (slicer v) -> np_getitem r 1 = Some C0 ->
  np_getitem r 0 = Some C0 ->
  mm_val_of o r 2 = Some mm -> (mm == 0)%Q.
Proof.
  intros Ho2 Ho1 Ho0 Hr2 Hr1 Hr0. unfold mm_val_of.
  change (2 - 2) with 0. change (2 - 1) with 1.
  rewrite Ho2, Ho1, Ho0, Hr2, Hr1, Hr0. cbn.
  intros H. inversion H. ring.
Qed.

(** X11. On every stream longer than the margin the first iteration sees a
    zero error term, whatever [samples[0]] is: it moves the cursor to
    [floor(sps)] and leaves the fraction of [sps] in [mu]. *)
Theorem first_iteration_advances_by_sps :
  lookahead_margin < L samples ->
  exists s1, reaches sps samples 1 s1 /\
             i_in s1 = np_floor sps /\
             (mu s1 == sps - inject_Z (np_floor sps))%Q.
Proof.
  intros HL.
  destruct (first_iteration sps samples HL) as (Hg & s1 & Hb & _).
  exists s1. split.
  { apply (reaches_S sps samples 0 (init samples) s1 (reaches_0 sps samples) Hg Hb). }
  pose proof (init_well_formed samples) as Hw.
  destruct (body_stores 0 (init samples) s1 Hw Hg Hb) as (v & _ & Ho & Hr).
  assert (10 <= length samples + 10)%nat as Hlen by lia.
  assert (forall (x : complex) (j : nat), (j < 2)%nat ->
            np_getitem (<[2%nat := x]> (np_zeros (length samples + 10))) (Z.of_nat j)
            = Some C0) as Hz.
  { intros x j Hj. rewrite np_getitem_inside
      by (rewrite length_insert; unfold np_zeros; rewrite length_replicate; lia).
    rewrite Nat2Z.id, list_lookup_insert_ne by lia.
    apply lookup_replicate_2. lia. }
  assert (forall x : complex,
            np_getitem (<[2%nat := x]> (np_zeros (length samples + 10))) 2 = Some x) as Hs.
  { intros x. rewrite np_getitem_inside
      by (rewrite length_insert; unfold np_zeros; rewrite length_replicate; lia).
    apply list_lookup_insert_eq. unfold np_zeros. rewrite length_replicate. lia. }
  unfold init in Ho, Hr; cbn [out out_rail i_out] in Ho, Hr.
  change (Z.to_nat 2) with 2%nat in Ho, Hr.
  apply body_Some in Hb as (v' & mm & _ & _ & _ & Hmm & Hmu & Hi & _).
  cbn [i_out init] in Hmm. rewrite Ho, Hr in Hmm.
  assert (mm == 0)%Q as Hmm0.
  { apply (first_mm_val v _ _ mm (Hs v) (Hz v 1%nat ltac:(lia)) (Hz v 0%nat ltac:(lia))
             (Hs (slicer v)) (Hz (slicer v) 1%nat ltac:(lia))
             (Hz (slicer v) 0%nat ltac:(lia)) Hmm). }
  assert (mu_updated sps (init samples) mm == sps)%Q as Hup.
  { unfold mu_updated, init; cbn [mu]. rewrite Hmm0. ring. }
  pose proof (Qfloor_comp _ _ Hup) as Hfl.
  split.
  - rewrite Hi. unfold np_floor. rewrite Hfl. cbn [i_in init]. lia.
  - rewrite Hmu. unfold np_floor. rewrite Hfl.
    apply Qplus_comp; [exact Hup | reflexivity].
Qed.

End LoopInvariants.

(** ** More on the slicer *)

(** X12. The decision depends on the signs only: scaling a sample by a
    positive real factor does not change it. *)
Theorem slicer_scale_invariant (c : Q) (v : complex) :
  (0 < c)%Q -> slicer (mkC (c * re v) (c * im v)) = slicer v.
Proof.
  intros Hc.
  assert (forall x : Q, Qgtb (c * x) 0 = Qgtb x 0) as H.
  { intros x. destruct (Qgtb x 0) eqn:E.
    - apply Qgtb_true. apply Qgtb_true in E. nra.
    - apply Qgtb_false. apply Qgtb_false in E. nra. }
  unfold slicer; cbn [re im]. rewrite !H. reflexivity.
Qed.

(** * The pulse train *)

Section PulseTrain.

Variable sps : nat.

(** The [sps] samples one bit contributes. *)
Local Abbreviation block bit := (inject_Z (bit * 2 - 1) :: replicate (sps - 1) 0%Q).

Lemma pulse_pos (bit : Z) :
  (0 < sps)%nat -> pulse sps bit = Some (block bit).
Proof.
  intros Hs. unfold pulse.
  rewrite np_setitem_inside by (rewrite length_replicate; lia).
  destruct sps as [| n]; [lia |]. cbn. rewrite Nat.sub_0_r. reflexivity.
Qed.

Lemma pulse_train_from_pos (acc : list Q) (bits : list Z) :
  (0 < sps)%nat ->
  pulse_train_from sps acc bits =
  Some (acc ++ concat (map (fun bit => block bit) bits)).
Proof.
  intros Hs. revert acc. induction bits as [| bit rest IH]; intros acc.
  - cbn. rewrite app_nil_r. reflexivity.
  - cbn [pulse_train_from]. rewrite (pulse_pos bit Hs). cbn [mbind option_bind].
    rewrite IH. cbn [map concat]. rewrite <- app_assoc. reflexivity.
Qed.

Lemma block_length (bit : Z) : (0 < sps)%nat -> length (block bit) = sps.
Proof. intros Hs. cbn. rewrite length_replicate. lia. Qed.

Lemma blocks_length (bits : list Z) :
  (0 < sps)%nat ->
  length (concat (map (fun bit => block bit) bits)) = (sps * length bits)%nat.
Proof.
  intros Hs. induction bits as [| bit rest IH]; [cbn; lia |].
  cbn [map concat]. rewrite length_app, IH, (block_length bit Hs). cbn [length]. lia.
Qed.

Lemma blocks_lookup (bits : list Z) (k j : nat) (bit : Z) :
  (0 < sps)%nat -> bits !! k = Some bit -> (j < sps)%nat ->
  concat (map (fun bit => block bit) bits) !! (k * sps + j)%nat =
  Some (match j with O => inject_Z (bit * 2 - 1) | S _ => 0%Q end).
Proof.
  intros Hs. revert k. induction bits as [| b rest IH]; intros k Hk Hj.
  - rewrite lookup_nil in Hk. discriminate.
  - cbn [map concat]. destruct k as [| k].
    + cbn in Hk. inversion Hk; subst b.
      rewrite lookup_app_l by (rewrite (block_length bit Hs); lia).
      destruct j as [| j]; [reflexivity |].
      cbn. apply lookup_replicate_2. lia.
    + cbn in Hk.
      rewrite lookup_app_r by (rewrite (block_length b Hs); lia).
      rewrite (block_length b Hs).
      replace (S k * sps + j - sps)%nat with (k * sps + j)%nat by lia.
      apply IH; assumption.
Qed.

(** X13. For [sps >= 1] the pulse train is built without error and holds
    [sps] samples per bit. *)
Theorem pulse_train_length (bits : list Z) :
  (0 < sps)%nat ->
  exists p, pulse_train sps bits = Some p /\ length p = (sps * length bits)%nat.
Proof.
  intros Hs. unfold pulse_train. rewrite (pulse_train_from_pos [] bits Hs).
  eexists. split; [reflexivity |]. cbn [app]. apply blocks_length, Hs.
Qed.

(** X14. In the pulse train the symbol [2*bit - 1] of bit number [k] sits at
    index [k * sps], and the [sps - 1] samples after it are zero. *)
Theorem pulse_train_lookup (bits : list Z) (p : list Q) (k j : nat) (bit : Z) :
  pulse_train sps bits = Some p -> bits !! k = Some bit -> (j < sps)%nat ->
  p !! (k * sps + j)%nat =
  Some (match j with O => inject_Z (bit * 2 - 1) | S _ => 0%Q end).
Proof.
  intros Hp Hk Hj.
  assert (0 < sps)%nat as Hs by lia.
  unfold pulse_train in Hp. rewrite (pulse_train_from_pos [] bits Hs) in Hp.
  inversion Hp; subst p. cbn [app]. now apply blocks_lookup.
Qed.

End PulseTrain.

(** X15. With [sps = 0] the store [pulse[0] = ...] raises for the first bit:
    the construction fails exactly when there is a bit to place. *)
Theorem pulse_train_zero_sps (bits : list Z) :
  (pulse_train 0 bits = None <-> bits <> []) /\
  (bits = [] -> pulse_train 0 bits = Some []).
Proof.
  split; [| intros ->; reflexivity].
  destruct bits as [| bit rest].
  - split; [discriminate | congruence].
  - assert (pulse_train 0 (bit :: rest) = None) as -> by reflexivity.
    split; [discriminate | reflexivity].
Qed.

Lemma block_bounded (sps : nat) (bit : Z) :
  bit = 0 \/ bit = 1 ->
  Forall (bounded 1)
    (map of_real (inject_Z (bit * 2 - 1) :: replicate (sps - 1) 0%Q)).
Proof.
  intros Hb. cbn [map]. constructor.
  - destruct Hb as [-> | ->]; unfold bounded, of_real; cbn [re im];
      repeat split; vm_compute; discriminate.
  - rewrite Forall_fmap. apply Forall_replicate.
    unfold bounded, of_real; cbn [re im compose]; repeat split; vm_compute; discriminate.
Qed.

Lemma pulse_train_bounded (sps : nat) (bits : list Z) (p : list Q) :
  Forall (fun bit => bit = 0 \/ bit = 1) bits ->
  pulse_train sps bits = Some p -> Forall (bounded 1) (map of_real p).
Proof.
  intros Hbits Hp.
  destruct sps as [| n].
  - destruct bits as [| bit rest]; [| discriminate Hp].
    inversion Hp. constructor.
  - unfold pulse_train in Hp.
    rewrite (pulse_train_from_pos (S n) [] bits ltac:(lia)) in Hp.
    inversion Hp; subst p; clear Hp. cbn [app].
    induction Hbits as [| bit rest Hbit _ IH]; [constructor |].
    cbn [map concat]. rewrite map_app. apply Forall_app. split; [| exact IH].
    apply (block_bounded (S n) bit Hbit).
Qed.

(** X16. The loop run directly on the pulse train of any 0/1 bit sequence,
    at the same integer [sps >= 2], raises no IndexError and returns an
    Output Sequence. *)
Theorem pulse_train_run_completes (sps : nat) (bits : list Z) (p : list Q) :
  (2 <= sps)%nat -> Forall (fun bit => bit = 0 \/ bit = 1) bits ->
  pulse_train sps bits = Some p ->
  exists s, run (inject_Z (Z.of_nat sps)) (map of_real p) = Done s /\
            recovered (inject_Z (Z.of_nat sps)) (map of_real p) = Some (output_of s).
Proof.
  intros Hs Hbits Hp.
  pose proof (pulse_train_bounded sps bits p Hbits Hp) as Hbd.
  destruct (bounded_run_Done (inject_Z (Z.of_nat sps)) (map of_real p) 1)
    as (n & s & _ & _ & Hrun); [lra | | exact Hbd |].
  - assert (inject_Z 2 <= inject_Z (Z.of_nat sps))%Q as H2
      by (rewrite <- Zle_Qle; lia).
    change (inject_Z 2) with 2%Q in H2. unfold gain. lra.
  - exists s. split; [exact Hrun |]. unfold recovered. rewrite Hrun. reflexivity.
Qed.

(** * The delay filter *)

Lemma np_arange_length (lo hi : Z) : length (np_arange lo hi) = Z.to_nat (hi - lo).
Proof. unfold np_arange. rewrite length_map, length_seq. reflexivity. Qed.

Lemma np_arange_elem (lo hi x : Z) : x ∈ np_arange lo hi <-> lo <= x < hi.
Proof.
  unfold np_arange. rewrite list_elem_of_fmap. split.
  - intros (i & -> & Hi). apply elem_of_seq in Hi. lia.
  - intros Hx. exists (Z.to_nat (x - lo)). split; [lia |].
    apply elem_of_seq. lia.
Qed.

(** X17. For every tap count [N >= 0] the index grid has exactly [N]
    entries, the integers from [-((N+1)/2)] to [N/2 - 1]; for an odd [N] it
    is therefore centred on -1, not on 0. *)
Theorem tap_grid_shape (N : Z) :
  0 <= N ->
  Z.of_nat (length (tap_grid N)) = N /\
  (forall x, x ∈ tap_grid N <-> - ((N + 1) / 2) <= x <= N / 2 - 1) /\
  (N mod 2 = 1 -> - ((N + 1) / 2) + (N / 2 - 1) = -2).
Proof.
  intros HN. unfold tap_grid.
  assert ((- N) / 2 = - ((N + 1) / 2)) as E by (Z.div_mod_to_equations; lia).
  split; [| split].
  - rewrite np_arange_length. Z.div_mod_to_equations. lia.
  - intros x. rewrite np_arange_elem, E. lia.
  - intros Hodd. Z.div_mod_to_equations. lia.
Qed.



(** * The order of the outputs *)

Section LoopOrder.

Variable sps : Q.
Variable samples : list complex.
Variable B : Q.
Hypothesis B_nonneg : (0 <= B)%Q.
Hypothesis samples_bounded : Forall (bounded B) samples.

Lemma body_step_bounds (n : nat) (s s' : State) :
  reaches sps samples n s -> body sps samples s = Some s' ->
  (sps - 6 * gain * B - 1 < inject_Z (i_in s' - i_in s))%Q /\
  (inject_Z (i_in s' - i_in s) < sps + 6 * gain * B + 1)%Q.
Proof.
  intros Hr Hb. pose proof Hb as Hb'.
  apply body_Some in Hb' as (v & mm & _ & _ & _ & Hmm & _ & Hi & _).
  destruct (body_mm_bound sps samples B B_nonneg samples_bounded n s s' mm Hr Hb Hmm)
    as [Hlo Hhi].
  pose proof (reaches_well_formed sps samples n s Hr) as (_ & _ & _ & H0 & H1).
  destruct (frac_unit (mu_updated sps s mm)) as [Hf0 Hf1].
  replace (i_in s' - i_in s) with (np_floor (mu_updated sps s mm)) by lia.
  unfold mu_updated, gain in *. split; lra.
Qed.

Lemma body_i_in_lt (n : nat) (s s' : State) :
  (1 + 6 * gain * B <= sps)%Q ->
  reaches sps samples n s -> body sps samples s = Some s' -> i_in s < i_in s'.
Proof.
  intros Hsps Hr Hb.
  destruct (body_step_bounds n s s' Hr Hb) as [Hlo _].
  assert (inject_Z 0 < inject_Z (i_in s' - i_in s))%Q as H
    by (change (inject_Z 0) with 0%Q; lra).
  rewrite <- Zlt_Qlt in H. lia.
Qed.

Lemma reaches_i_in_nonneg_strict (n : nat) (s : State) :
  (1 + 6 * gain * B <= sps)%Q -> reaches sps samples n s -> 0 <= i_in s.
Proof.
  intros Hsps. revert n s. apply (reaches_ind sps samples).
  - cbn. lia.
  - intros n s s' Hr IH _ Hb. pose proof (body_i_in_lt n s s' Hsps Hr Hb). lia.
Qed.

Lemma take_sublist_take {A : Type} (l : list A) (n m : nat) :
  (n <= m)%nat -> take n l `sublist_of` take m l.
Proof.
  intros H. replace (take n l) with (take n (take m l)).
  - apply sublist_take.
  - rewrite take_take. f_equal. lia.
Qed.

Lemma reaches_output_sublist (n : nat) (s : State) :
  (1 + 6 * gain * B <= sps)%Q -> reaches sps samples n s ->
  output_of s `sublist_of`
    take (Z.to_nat (Z.min (i_in s) (L samples - lookahead_margin))) samples.
Proof.
  intros Hsps. revert n s. apply (reaches_ind sps samples).
  - rewrite output_of_init. apply sublist_nil_l.
  - intros n s s' Hr IH Hg Hb.
    destruct (body_output_snoc sps samples n s s' Hr Hg Hb) as (v & Hv & -> & _).
    pose proof (body_i_in_lt n s s' Hsps Hr Hb) as Hlt.
    pose proof (reaches_i_in_nonneg_strict n s Hsps Hr) as H0.
    apply guard_true in Hg as [_ Hg].
    rewrite np_getitem_inside in Hv by (unfold L, lookahead_margin in *; lia).
    rewrite Z.min_l in IH by lia.
    eapply transitivity;
      [| apply (take_sublist_take samples (S (Z.to_nat (i_in s)))); lia].
    rewrite (take_S_r _ _ v Hv).
    apply sublist_app; [exact IH | reflexivity].
Qed.

End LoopOrder.

Section LoopOrderFacts.

Variable sps : Q.
Variable samples : list complex.

(** X19. With every sample component of magnitude at most [B], one
    iteration moves the cursor by more than [sps - 6*gain*B - 1] and by less
    than [sps + 6*gain*B + 1] samples. *)
Theorem step_size_bounds (B : Q) (n : nat) (s s' : State) :
  (0 <= B)%Q -> Forall (bounded B) samples ->
  reaches sps samples n s -> reaches sps samples (S n) s' ->
  (sps - 6 * gain * B - 1 < inject_Z (i_in s' - i_in s))%Q /\
  (inject_Z (i_in s' - i_in s) < sps + 6 * gain * B + 1)%Q.
Proof.
  intros HB Hbd Hr Hr'.
  apply reaches_S_inv in Hr' as (s0 & Hr0 & _ & Hb).
  rewrite (reaches_functional sps samples n s s0 Hr Hr0).
  now apply (body_step_bounds sps samples B HB Hbd n).
Qed.

(** X20. With every sample component of magnitude at most [B] and
    [1 + 6*gain*B <= sps], every iteration moves the cursor forward by at
    least one sample. *)
Theorem input_index_strictly_increasing (B : Q) (n : nat) (s s' : State) :
  (0 <= B)%Q -> Forall (bounded B) samples -> (1 + 6 * gain * B <= sps)%Q ->
  reaches sps samples n s -> reaches sps samples (S n) s' ->
  i_in s < i_in s'.
Proof.
  intros HB Hbd Hsps Hr Hr'.
  apply reaches_S_inv in Hr' as (s0 & Hr0 & _ & Hb).
  rewrite (reaches_functional sps samples n s s0 Hr Hr0).
  now apply (body_i_in_lt sps samples B HB Hbd n).
Qed.

(** X21. With every sample component of magnitude at most [B] and
    [1 + 6*gain*B <= sps], the Output Sequence is a subsequence of the Input
    Stream without its last 16 samples: the outputs keep the order of the
    input and no input position is used twice. *)
Theorem output_is_subsequence (B : Q) (n : nat) (s : State) :
  (0 <= B)%Q -> Forall (bounded B) samples -> (1 + 6 * gain * B <= sps)%Q ->
  reaches sps samples n s ->
  output_of s `sublist_of`
    take (Z.to_nat (L samples - lookahead_margin)) samples.
Proof.
  intros HB Hbd Hsps Hr.
  eapply transitivity;
    [apply (reaches_output_sublist sps samples B HB Hbd n s Hsps Hr) |].
  apply take_sublist_take. lia.
Qed.

End LoopOrderFacts.

(** * Instances of the further properties *)

Ltac by_run := unfold reaches; vm_compute; reflexivity.

Lemma one_pos : (0 <= 1)%Q.
Proof. unfold Qle; cbn; lia. Defined.

Lemma rate_margin_C1 : (1 + 6 * gain * 1 <= 8)%Q.
Proof. unfold Qle; cbn; lia. Defined.

Lemma bits_C1_binary : Forall (fun bit => bit = 0 \/ bit = 1) bits_C1.
Proof.
  unfold bits_C1.
  repeat (apply Forall_cons; split; [lia |]).
  apply Forall_nil. exact I.
Defined.


Lemma outputs_are_input_samples_witness :
  reaches 8 stream_C1 4 (state_C1 4) /\
  Forall (fun v => v ∈ stream_C1) (output_of (state_C1 4)).
Proof.
  assert (reaches 8 stream_C1 4 (state_C1 4)) as H by by_run.
  split; [exact H |].
  exact (outputs_are_input_samples 8 stream_C1 4 _ H).
Defined.

Lemma decisions_are_sliced_outputs_witness :
  reaches 8 stream_C1 4 (state_C1 4) /\
  np_slice (out_rail (state_C1 4)) 2 (i_out (state_C1 4)) =
    map slicer (output_of (state_C1 4)).
Proof.
  assert (reaches 8 stream_C1 4 (state_C1 4)) as H by by_run.
  split; [exact H |].
  exact (decisions_are_sliced_outputs 8 stream_C1 4 _ H).
Defined.

Lemma untouched_entries_are_zero_witness :
  reaches 8 stream_C1 2 (state_C1 2) /\
  out (state_C1 2) !! 4%nat = Some C0 /\ out_rail (state_C1 2) !! 4%nat = Some C0.
Proof.
  assert (reaches 8 stream_C1 2 (state_C1 2)) as H by by_run.
  split; [exact H |].
  apply (untouched_entries_are_zero 8 stream_C1 2 _ 4 H).
  - right. vm_compute. lia.
  - vm_compute. lia.
Defined.

Lemma output_count_witness :
  exists o, recovered 8 stream_C1 = Some o /\
            (length o <= length stream_C1 - 2)%nat.
Proof.
  eexists. split; [vm_compute; reflexivity |].
  apply (output_count 8 stream_C1). vm_compute. reflexivity.
Defined.


Lemma detector_bounded_witness :
  exists mm,
    mm_val_of (out (state_C1 2)) (out_rail (state_C1 2)) (i_out (state_C1 1))
      = Some mm /\
    (- (6 * 1) <= mm)%Q /\ (mm <= 6 * 1)%Q.
Proof.
  assert (reaches 8 stream_C1 1 (state_C1 1)) as Hr by by_run.
  assert (body 8 stream_C1 (state_C1 1) = Some (state_C1 2)) as Hb
    by (vm_compute; reflexivity).
  eexists. split; [vm_compute; reflexivity |].
  apply (detector_bounded 8 stream_C1 1 1 _ _ _ one_pos stream_C1_bounded Hr Hb).
  vm_compute. reflexivity.
Defined.


Lemma bounded_run_completes_witness :
  exists s, run 8 stream_C1 = Done s /\
            recovered 8 stream_C1 = Some (output_of s).
Proof.
  assert (6 * gain * 1 <= 8)%Q as Hs by (unfold Qle; cbn; lia).
  destruct (bounded_run_completes 8 stream_C1 1 one_pos Hs stream_C1_bounded)
    as (s & Hrun & _ & Hrec).
  exists s. auto.
Defined.


Lemma first_iteration_advances_by_sps_witness :
  lookahead_margin < L stream_C1 /\
  exists s1, reaches (17 # 2) stream_C1 1 s1 /\ i_in s1 = np_floor (17 # 2) /\
             (mu s1 == (17 # 2) - inject_Z (np_floor (17 # 2)))%Q.
Proof.
  assert (lookahead_margin < L stream_C1) as H by reflexivity.
  split; [exact H |].
  exact (first_iteration_advances_by_sps (17 # 2) stream_C1 H).
Defined.

Lemma slicer_scale_invariant_witness :
  (0 < 2)%Q /\
  slicer (mkC (2 * re (mkC 1 (-1))) (2 * im (mkC 1 (-1)))) = slicer (mkC 1 (-1)).
Proof.
  assert (0 < 2)%Q as H by reflexivity.
  split; [exact H |]. exact (slicer_scale_invariant 2 (mkC 1 (-1)) H).
Defined.

Lemma pulse_train_length_witness :
  (0 < 8)%nat /\
  exists p, pulse_train 8 bits_C1 = Some p /\ length p = (8 * length bits_C1)%nat.
Proof.
  assert (0 < 8)%nat as H by lia.
  split; [exact H |]. exact (pulse_train_length 8 bits_C1 H).
Defined.

Lemma pulse_train_lookup_witness :
  exists p, pulse_train 8 bits_C1 = Some p /\ bits_C1 !! 1%nat = Some 0 /\
            p !! (1 * 8 + 0)%nat = Some (inject_Z (0 * 2 - 1)).
Proof.
  eexists. split; [vm_compute; reflexivity |]. split; [reflexivity |].
  apply (pulse_train_lookup 8 bits_C1 _ 1 0 0).
  - vm_compute. reflexivity.
  - reflexivity.
  - lia.
Defined.

Lemma pulse_train_run_completes_witness :
  exists p, pulse_train 8 bits_C1 = Some p /\
    exists s, run (inject_Z (Z.of_nat 8)) (map of_real p) = Done s /\
      recovered (inject_Z (Z.of_nat 8)) (map of_real p) = Some (output_of s).
Proof.
  eexists. split; [vm_compute; reflexivity |].
  apply (pulse_train_run_completes 8 bits_C1).
  - lia.
  - exact bits_C1_binary.
  - vm_compute. reflexivity.
Defined.

Lemma tap_grid_shape_witness :
  0 <= 21 /\ Z.of_nat (length (tap_grid 21)) = 21 /\
  (forall x, x ∈ tap_grid 21 <-> - ((21 + 1) / 2) <= x <= 21 / 2 - 1).
Proof.
  assert (0 <= 21) as H by lia.
  split; [exact H |].
  destruct (tap_grid_shape 21 H) as (Hl & He & _). auto.
Defined.


Lemma step_size_bounds_witness :
  reaches 8 stream_C1 1 (state_C1 1) /\ reaches 8 stream_C1 2 (state_C1 2) /\
  (8 - 6 * gain * 1 - 1 < inject_Z (i_in (state_C1 2) - i_in (state_C1 1)))%Q /\
  (inject_Z (i_in (state_C1 2) - i_in (state_C1 1)) < 8 + 6 * gain * 1 + 1)%Q.
Proof.
  assert (reaches 8 stream_C1 1 (state_C1 1)) as H1 by by_run.
  assert (reaches 8 stream_C1 2 (state_C1 2)) as H2 by by_run.
  split; [exact H1 |]. split; [exact H2 |].
  exact (step_size_bounds 8 stream_C1 1 1 _ _ one_pos stream_C1_bounded H1 H2).
Defined.

Lemma input_index_strictly_increasing_witness :
  reaches 8 stream_C1 1 (state_C1 1) /\ reaches 8 stream_C1 2 (state_C1 2) /\
  i_in (state_C1 1) < i_in (state_C1 2).
Proof.
  assert (reaches 8 stream_C1 1 (state_C1 1)) as H1 by by_run.
  assert (reaches 8 stream_C1 2 (state_C1 2)) as H2 by by_run.
  split; [exact H1 |]. split; [exact H2 |].
  exact (input_index_strictly_increasing 8 stream_C1 1 1 _ _
           one_pos stream_C1_bounded rate_margin_C1 H1 H2).
Defined.

Lemma output_is_subsequence_witness :
  reaches 8 stream_C1 4 (state_C1 4) /\
  output_of (state_C1 4) `sublist_of`
    take (Z.to_nat (L stream_C1 - lookahead_margin)) stream_C1.
Proof.
  assert (reaches 8 stream_C1 4 (state_C1 4)) as H by by_run.
  split; [exact H |].
  exact (output_is_subsequence 8 stream_C1 1 4 _
           one_pos stream_C1_bounded rate_margin_C1 H).
Defined.
